(** * The Hunter Douglas PowerView integration: config-entry lifecycle

    A shallow embedding of
    [homeassistant/components/hunterdouglas_powerview/__init__.py]:
    [async_setup_entry], [async_get_device_info], [async_unload_entry],
    [async_migrate_entry] and [_migrate_unique_ids].

    The Python coroutines run sequentially against two outside parties, the
    vendor SDK (the hub) and the host framework.  They are embedded as
    computations in a state-and-exception monad over a [World] (the config
    entry, the entity registry and a log of the calls made), with the answers
    of the outside parties given by an [Env]. *)

From stdpp Require Import gmap strings list fin_maps pretty.

Open Scope Z_scope.
Open Scope string_scope.
Open Scope list_scope.

(** ** Python values *)

(** The values found in a config entry's [data] mapping and in the hub's
    attributes: [None], integers and strings. *)
Inductive value :=
| VNone
| VInt (z : Z)
| VStr (s : string).

#[global] Instance value_eq_dec : EqDecision value.
Proof. solve_decision. Defined.

(** [str(v)], as the f-strings of the module apply it. *)
Definition py_str (v : value) : string :=
  match v with
  | VNone => "None"
  | VInt z => pretty z
  | VStr s => s
  end.

(** [homeassistant.const.CONF_HOST] and [CONF_API_VERSION]. *)
Definition CONF_HOST : string := "host".
Definition CONF_API_VERSION : string := "api_version".

(** [homeassistant.const.Platform], the members this module names and a few
    of the others. *)
Inductive Platform :=
| BINARY_SENSOR | BUTTON | COVER | LIGHT | NUMBER | SCENE | SELECT | SENSOR
| SWITCH.

#[global] Instance Platform_eq_dec : EqDecision Platform.
Proof. solve_decision. Defined.

Definition PLATFORMS : list Platform :=
  [BUTTON; COVER; NUMBER; SCENE; SELECT; SENSOR].

(** ** Exceptions *)

(** Modelled from the spec: [HUB_EXCEPTIONS] of [const.py] is not among the
    sources; an exception is either an instance of one of its classes
    ([HubError]), some other exception raised by an outside party
    ([OtherError]), or one of the two this module can raise itself. *)
Inductive exception :=
| HubError (text : string)
| OtherError (text : string)
| KeyError (key : string)
| ConfigEntryNotReady (message : string).

Definition HUB_EXCEPTIONS (e : exception) : bool :=
  match e with
  | HubError _ => true
  | _ => false
  end.

(** [str(err)] *)
Definition exception_str (e : exception) : string :=
  match e with
  | HubError t => t
  | OtherError t => t
  | KeyError k => "'" +:+ k +:+ "'"
  | ConfigEntryNotReady m => m
  end.

Inductive Outcome (A : Type) :=
| Return (a : A)
| Raise (e : exception).
Arguments Return {A} a.
Arguments Raise {A} e.

(** ** The vendor SDK's objects *)

Inductive ClientSession := HassClientSession.
Inductive EventLoop := HassLoop.

Module AioRequest.
Record t := mk {
  hub_address : value;
  loop : EventLoop;
  websession : ClientSession;
  api_version : value;
}.
End AioRequest.

(** The hub's attributes, as [query_firmware] leaves them. *)
Module Hub.
Record t := mk {
  name : value;
  hub_address : value;
  role : value;
  mac_address : value;
  serial_number : value;
  firmware : value;
  model : value;
  ip : value;
  api_version : value;
}.
End Hub.

(** [aiopvapi.resources.model.PowerviewData]: the raw answer of an endpoint and
    the resources built from it, by id. *)
Module PowerviewData.
Record t := mk {
  raw : list value;
  processed : gmap Z value;
}.
End PowerviewData.

Module Shades.
Record t := mk { request : AioRequest.t }.
End Shades.

(** ** The integration's own records ([model.py], [coordinator.py]) *)

(** Modelled from the spec: [PowerviewDeviceInfo] of [model.py] is not among
    the sources; the spec's Device Info record (name, MAC, serial, firmware,
    model, address), with the field names of the constructor call. *)
Module PowerviewDeviceInfo.
Record t := mk {
  name : value;
  mac_address : value;
  serial_number : value;
  firmware : value;
  model : value;
  hub_address : value;
}.
End PowerviewDeviceInfo.

(** Modelled from the spec: [PowerviewShadeUpdateCoordinator] and
    [PowerviewShadeData] are not among the sources; the spec's polling
    coordinator, reduced to what it is built from and the group data stored
    into it. *)
Module PowerviewShadeData.
Record t := mk { group_data : option PowerviewData.t }.
Definition new : t := mk None.
Definition store_group_data (d : t) (shade_data : PowerviewData.t) : t :=
  mk (Some shade_data).
End PowerviewShadeData.

Module PowerviewShadeUpdateCoordinator.
Record t := mk {
  shades : Shades.t;
  hub : Hub.t;
  data : option PowerviewShadeData.t;
}.
Definition new (shades : Shades.t) (hub : Hub.t) : t := mk shades hub None.
Definition async_set_updated_data (c : t) (d : PowerviewShadeData.t) : t :=
  mk (shades c) (hub c) (Some d).
End PowerviewShadeUpdateCoordinator.

(** Modelled from the spec: [PowerviewEntryData] of [model.py] is not among the
    sources; the spec's Entry Data aggregate (API handle, processed
    room/scene/shade mappings, polling coordinator, device info). *)
Module PowerviewEntryData.
Record t := mk {
  api : AioRequest.t;
  room_data : gmap Z value;
  scene_data : gmap Z value;
  shade_data : gmap Z value;
  coordinator : PowerviewShadeUpdateCoordinator.t;
  device_info : PowerviewDeviceInfo.t;
}.
End PowerviewEntryData.

(** ** The host framework's objects *)

(** The config entry.  [unique_id] is the string the module takes it to be
    ([assert entry.unique_id] under [TYPE_CHECKING]). *)
Module ConfigEntry.
Record t := mk {
  entry_id : string;
  unique_id : string;
  version : Z;
  minor_version : Z;
  data : gmap string value;
  runtime_data : option PowerviewEntryData.t;
}.
Definition set_data (d : gmap string value) (e : t) : t :=
  mk (entry_id e) (unique_id e) (version e) (minor_version e) d
     (runtime_data e).
Definition set_minor_version (v : Z) (e : t) : t :=
  mk (entry_id e) (unique_id e) (version e) v (data e) (runtime_data e).
Definition set_runtime_data (r : PowerviewEntryData.t) (e : t) : t :=
  mk (entry_id e) (unique_id e) (version e) (minor_version e) (data e)
     (Some r).
End ConfigEntry.

(** A unique id of the entity registry: an integer (the ids written before the
    migration) or a string. *)
Inductive UniqueId :=
| UidInt (z : Z)
| UidStr (s : string).

#[global] Instance UniqueId_eq_dec : EqDecision UniqueId.
Proof. solve_decision. Defined.

Module RegistryEntry.
Record t := mk {
  config_entry_id : option string;
  unique_id : UniqueId;
}.
Definition set_unique_id (u : UniqueId) (r : t) : t :=
  mk (config_entry_id r) u.
End RegistryEntry.

(** ** Calls made to the outside, in the order they are made *)

Inductive Event :=
| EvLog (level : string) (fmt : string) (args : list string)
| EvGetClientSession
| EvAioRequest (r : AioRequest.t)
| EvHub (r : AioRequest.t)
| EvQueryFirmware
| EvGetDeviceInfo
| EvCheckRole
| EvGetRooms
| EvGetScenes
| EvGetShades
| EvUpdateEntryData (new_data : gmap string value)
| EvUpdateEntryMinorVersion (v : Z)
| EvCoordinator (c : PowerviewShadeUpdateCoordinator.t)
| EvSetRuntimeData (d : PowerviewEntryData.t)
| EvForwardEntrySetups (platforms : list Platform)
| EvUnloadPlatforms (platforms : list Platform)
| EvUpdateEntity (entity_id : string) (new_unique_id : string).

(** ** The world and the outside parties *)

(** The host's state as far as the module touches it: the config entry it is
    called with, the entity registry (by entity id), and the log of calls. *)
Record World := mkWorld {
  entry : ConfigEntry.t;
  registry : gmap string RegistryEntry.t;
  trace : list Event;
}.

(** What the outside parties answer during one run: the hub to each request,
    the host framework to platform forwarding and unloading, and the truth
    value Python gives to a device info record ([if not device_info]). *)
Record Env := mkEnv {
  hub_query_firmware : Outcome Hub.t;
  rooms_get_rooms : Outcome PowerviewData.t;
  scenes_get_scenes : Outcome PowerviewData.t;
  shades_get_shades : Outcome PowerviewData.t;
  device_info_bool : PowerviewDeviceInfo.t → bool;
  async_forward_entry_setups : Outcome unit;
  async_unload_platforms : Outcome bool;
}.

(** ** The monad *)

Definition M (A : Type) : Type := World → Outcome A * World.

#[global] Instance M_ret : MRet M := λ A a w, (Return a, w).
#[global] Instance M_bind : MBind M := λ A B f m w,
  match m w with
  | (Return a, w') => f a w'
  | (Raise e, w') => (Raise e, w')
  end.

Definition raise {A} (e : exception) : M A := λ w, (Raise e, w).

Definition emit (ev : Event) : M unit := λ w,
  (Return tt, mkWorld (entry w) (registry w) (trace w ++ [ev])).

Definition get_entry : M ConfigEntry.t := λ w, (Return (entry w), w).

Definition modify_entry (f : ConfigEntry.t → ConfigEntry.t) : M unit := λ w,
  (Return tt, mkWorld (f (entry w)) (registry w) (trace w)).

Definition get_registry : M (gmap string RegistryEntry.t) := λ w,
  (Return (registry w), w).

Definition modify_registry
    (f : gmap string RegistryEntry.t → gmap string RegistryEntry.t) : M unit :=
  λ w, (Return tt, mkWorld (entry w) (f (registry w)) (trace w)).

(** The answer of an outside party: its value, or the exception it raises. *)
Definition answer {A} (o : Outcome A) : M A := λ w, (o, w).

(** [try: body / except HUB_EXCEPTIONS as err: handler err] *)
Definition try_except_hub {A} (body : M A) (handler : exception → M A) : M A :=
  λ w,
    match body w with
    | (Raise e, w') =>
        if HUB_EXCEPTIONS e then handler e w' else (Raise e, w')
    | r => r
    end.

(** [d[key]] *)
Definition subscript (d : gmap string value) (key : string) : M value :=
  match d !! key with
  | Some v => mret v
  | None => raise (KeyError key)
  end.

Definition log (level fmt : string) (args : list string) : M unit :=
  emit (EvLog level fmt args).

(** ** The host framework's and the SDK's operations *)

(** Modelled from the spec: [DOMAIN] of [const.py] is not among the sources;
    the integration's domain name, used in log lines only. *)
Definition DOMAIN : string := "hunterdouglas_powerview".

(** [async_get_clientsession(hass)] *)
Definition async_get_clientsession : M ClientSession :=
  emit EvGetClientSession;; mret HassClientSession.

(** [AioRequest(hub_address, loop=..., websession=..., api_version=...)] *)
Definition AioRequest_new (hub_address : value) (loop : EventLoop)
    (websession : ClientSession) (api_version : value) : M AioRequest.t :=
  let r := AioRequest.mk hub_address loop websession api_version in
  emit (EvAioRequest r);; mret r.

(** [hub = Hub(pv_request)]; the handle's attributes are read only after
    [query_firmware] has filled them in, so the handle is carried by the
    latter's answer. *)
Definition Hub_new (r : AioRequest.t) : M unit := emit (EvHub r).

(** [await hub.query_firmware()] *)
Definition query_firmware (env : Env) : M Hub.t :=
  emit EvQueryFirmware;; answer (hub_query_firmware env).

(** [await rooms.get_rooms()], [await scenes.get_scenes()],
    [await shades.get_shades()] *)
Definition get_rooms (env : Env) : M PowerviewData.t :=
  emit EvGetRooms;; answer (rooms_get_rooms env).
Definition get_scenes (env : Env) : M PowerviewData.t :=
  emit EvGetScenes;; answer (scenes_get_scenes env).
Definition get_shades (env : Env) : M PowerviewData.t :=
  emit EvGetShades;; answer (shades_get_shades env).

(** Modelled from the spec: [hass.config_entries.async_update_entry] is not
    among the sources; the host stores the given [data] (or the given
    [minor_version]) in the config entry. *)
Definition async_update_entry_data (new_data : gmap string value) : M unit :=
  emit (EvUpdateEntryData new_data);;
  modify_entry (ConfigEntry.set_data new_data).
Definition async_update_entry_minor_version (v : Z) : M unit :=
  emit (EvUpdateEntryMinorVersion v);;
  modify_entry (ConfigEntry.set_minor_version v).

(** [entry.runtime_data = d] *)
Definition set_runtime_data (d : PowerviewEntryData.t) : M unit :=
  emit (EvSetRuntimeData d);;
  modify_entry (ConfigEntry.set_runtime_data d).

(** [PowerviewShadeUpdateCoordinator(hass, shades, hub)], followed by
    [async_set_updated_data(PowerviewShadeData())] and
    [coordinator.data.store_group_data(shade_data)]. *)
Definition new_coordinator (shades : Shades.t) (hub : Hub.t)
    (shade_data : PowerviewData.t) : M PowerviewShadeUpdateCoordinator.t :=
  let coordinator := PowerviewShadeUpdateCoordinator.new shades hub in
  let coordinator :=
    PowerviewShadeUpdateCoordinator.async_set_updated_data coordinator
      PowerviewShadeData.new in
  let coordinator :=
    PowerviewShadeUpdateCoordinator.mk
      (PowerviewShadeUpdateCoordinator.shades coordinator)
      (PowerviewShadeUpdateCoordinator.hub coordinator)
      (flip PowerviewShadeData.store_group_data shade_data
         <$> PowerviewShadeUpdateCoordinator.data coordinator) in
  emit (EvCoordinator coordinator);; mret coordinator.

(** Modelled from the spec: [hass.config_entries.async_forward_entry_setups]
    and [async_unload_platforms] are not among the sources; the host is asked
    once, with the entry and the list of platforms, and answers. *)
Definition forward_entry_setups (env : Env) (platforms : list Platform)
    : M unit :=
  emit (EvForwardEntrySetups platforms);;
  answer (async_forward_entry_setups env).
Definition unload_platforms (env : Env) (platforms : list Platform)
    : M bool :=
  emit (EvUnloadPlatforms platforms);;
  answer (async_unload_platforms env).

(** ** The module's functions *)

(** [async_get_device_info(hub)] *)
Definition async_get_device_info (hub : Hub.t) : M PowerviewDeviceInfo.t :=
  emit EvGetDeviceInfo;;
  mret (PowerviewDeviceInfo.mk
          (Hub.name hub)
          (Hub.mac_address hub)
          (Hub.serial_number hub)
          (Hub.firmware hub)
          (Hub.model hub)
          (Hub.ip hub)).

Definition connection_error (hub_address : value) (err : exception)
    : exception :=
  ConfigEntryNotReady
    ("Connection error to PowerView hub " +:+ py_str hub_address +:+ ": "
       +:+ exception_str err).

(** [async_setup_entry(hass, entry)] *)
Definition async_setup_entry (env : Env) : M bool :=
  entry ← get_entry;
  let config := ConfigEntry.data entry in
  hub_address ← subscript config CONF_HOST;
  let api_version := default VNone (config !! CONF_API_VERSION) in
  log "debug" "Connecting %s at %s with v%s api"
      [DOMAIN; py_str hub_address; py_str api_version];;
  websession ← async_get_clientsession;
  pv_request ← AioRequest_new hub_address HassLoop websession api_version;
  '(hub, device_info) ←
    try_except_hub
      (Hub_new pv_request;;
       hub ← query_firmware env;
       device_info ← async_get_device_info hub;
       mret (hub, device_info))
      (λ err, raise (connection_error hub_address err));
  emit EvCheckRole;;
  if decide (Hub.role hub ≠ VStr "Primary") then
    log "error"
        "%s (%s) is performing role of %s Hub. Only the Primary Hub can manage shades"
        [py_str (Hub.name hub); py_str (Hub.hub_address hub);
         py_str (Hub.role hub)];;
    mret false
  else
    '(room_data, scene_data, shades, shade_data) ←
      try_except_hub
        (room_data ← get_rooms env;
         scene_data ← get_scenes env;
         let shades := Shades.mk pv_request in
         shade_data ← get_shades env;
         mret (room_data, scene_data, shades, shade_data))
        (λ err, raise (connection_error hub_address err));
    (if negb (device_info_bool env device_info) then
       raise (ConfigEntryNotReady
                ("Unable to initialize PowerView hub: " +:+ py_str hub_address))
     else mret tt);;
    (if decide (config !! CONF_API_VERSION = None) then
       entry ← get_entry;
       let new_data := ConfigEntry.data entry in
       let new_data := <[CONF_API_VERSION := Hub.api_version hub]> new_data in
       async_update_entry_data new_data
     else mret tt);;
    coordinator ← new_coordinator shades hub shade_data;
    set_runtime_data
      (PowerviewEntryData.mk
         pv_request
         (PowerviewData.processed room_data)
         (PowerviewData.processed scene_data)
         (PowerviewData.processed shade_data)
         coordinator
         device_info);;
    forward_entry_setups env PLATFORMS;;
    mret true.

(** [async_unload_entry(hass, entry)] *)
Definition async_unload_entry (env : Env) : M bool :=
  unload_platforms env PLATFORMS.


(** ** Migration of the unique ids *)

(** [s.startswith(prefix)] *)
Definition startswith (s prefix : string) : bool := String.prefix prefix s.

(** [str(u)] of a unique id, as the f-string formats it. *)
Definition uid_str (u : UniqueId) : string :=
  match u with
  | UidInt z => pretty z
  | UidStr s => s
  end.

(** Modelled from the spec: [homeassistant.helpers.entity_registry] is not
    among the sources; the registry is a mapping from entity id to entry,
    [async_entries_for_config_entry] lists the entries of one config entry, and
    [async_update_entity] stores the new unique id under the given entity
    id. *)
Definition async_entries_for_config_entry
    (entity_registry : gmap string RegistryEntry.t) (config_entry_id : string)
    : list (string * RegistryEntry.t) :=
  filter (λ p, RegistryEntry.config_entry_id p.2 = Some config_entry_id)
         (map_to_list entity_registry).

Definition async_update_entity (entity_id new_unique_id : string) : M unit :=
  emit (EvUpdateEntity entity_id new_unique_id);;
  modify_registry
    (alter (RegistryEntry.set_unique_id (UidStr new_unique_id)) entity_id).

(** [for x in l: body x] *)
Fixpoint for_each {A} (l : list A) (body : A → M unit) : M unit :=
  match l with
  | [] => mret tt
  | x :: l' => body x;; for_each l' body
  end.

(** The test of the loop body: an integer, or a string that does not start
    with the entry's unique id. *)
Definition needs_migration (entry_unique_id : string) (u : UniqueId) : bool :=
  match u with
  | UidInt _ => true
  | UidStr s => negb (startswith s entry_unique_id)
  end.

(** [f"{entry.unique_id}_{reg_entry.unique_id}"] *)
Definition new_unique_id (entry_unique_id : string) (u : UniqueId) : string :=
  entry_unique_id +:+ "_" +:+ uid_str u.

Definition migrate_body (entry : ConfigEntry.t)
    (item : string * RegistryEntry.t) : M unit :=
  let '(entity_id, reg_entry) := item in
  if needs_migration (ConfigEntry.unique_id entry)
                     (RegistryEntry.unique_id reg_entry) then
    log "debug" "Migrating %s: %s to %s_%s"
        [entity_id; uid_str (RegistryEntry.unique_id reg_entry);
         ConfigEntry.unique_id entry;
         uid_str (RegistryEntry.unique_id reg_entry)];;
    async_update_entity entity_id
      (new_unique_id (ConfigEntry.unique_id entry)
                     (RegistryEntry.unique_id reg_entry))
  else mret tt.

(** [_migrate_unique_ids(hass, entry)] *)
Definition _migrate_unique_ids : M unit :=
  entity_registry ← get_registry;
  entry ← get_entry;
  let registry_entries :=
    async_entries_for_config_entry entity_registry
                                   (ConfigEntry.entry_id entry) in
  for_each registry_entries (migrate_body entry).

(** [async_migrate_entry(hass, entry)] *)
Definition async_migrate_entry : M bool :=
  entry ← get_entry;
  log "debug" "Migrating from version %s.%s"
      [pretty (ConfigEntry.version entry);
       pretty (ConfigEntry.minor_version entry)];;
  (if decide (ConfigEntry.version entry = 1) then
     if decide (ConfigEntry.minor_version entry = 1) then
       _migrate_unique_ids;;
       async_update_entry_minor_version 2
     else mret tt
   else mret tt);;
  entry ← get_entry;
  log "debug" "Migrated to version %s.%s"
      [pretty (ConfigEntry.version entry);
       pretty (ConfigEntry.minor_version entry)];;
  mret true.

(** ** Observing a run *)

Definition result {A} (m : M A) (w : World) : Outcome A := (m w).1.
Definition final {A} (m : M A) (w : World) : World := (m w).2.

(** The calls a run adds to the log. *)
Definition events {A} (m : M A) (w : World) : list Event :=
  drop (length (trace w)) (trace (final m w)).


(** Kinds of calls. *)
Definition is_snapshot_fetch (ev : Event) : bool :=
  match ev with
  | EvGetRooms | EvGetScenes | EvGetShades => true
  | _ => false
  end.

Definition is_coordinator_creation (ev : Event) : bool :=
  match ev with
  | EvCoordinator _ => true
  | _ => false
  end.

Definition is_platform_forward (ev : Event) : bool :=
  match ev with
  | EvForwardEntrySetups _ => true
  | _ => false
  end.

Definition is_runtime_data_assignment (ev : Event) : bool :=
  match ev with
  | EvSetRuntimeData _ => true
  | _ => false
  end.

Definition is_entry_update (ev : Event) : bool :=
  match ev with
  | EvUpdateEntryData _ | EvUpdateEntryMinorVersion _ => true
  | _ => false
  end.

Definition is_entity_update (ev : Event) : bool :=
  match ev with
  | EvUpdateEntity _ _ => true
  | _ => false
  end.

(** The steps of the setup that address the hub. *)
Definition is_hub_step (ev : Event) : bool :=
  match ev with
  | EvAioRequest _ | EvHub _ | EvQueryFirmware | EvGetDeviceInfo | EvCheckRole
  | EvGetRooms | EvGetScenes | EvGetShades => true
  | _ => false
  end.

(** The request handle the setup builds from the entry's data. *)
Definition pv_request_of (hub_address : value) (config : gmap string value)
    : AioRequest.t :=
  AioRequest.mk hub_address HassLoop HassClientSession
                (default VNone (config !! CONF_API_VERSION)).

(** The steps of a setup that runs to the end, in the order of the source. *)
Definition setup_steps (pv_request : AioRequest.t) : list Event :=
  [EvAioRequest pv_request; EvHub pv_request; EvQueryFirmware; EvGetDeviceInfo;
   EvCheckRole; EvGetRooms; EvGetScenes; EvGetShades].

(** A hub exception is raised while querying firmware and device info, or
    while fetching the room, scene or shade snapshots: the call is reached and
    the hub answers it with an exception of [HUB_EXCEPTIONS]. *)
Inductive hub_exception_raised (env : Env) : exception → Prop :=
| raised_querying_firmware e :
    hub_query_firmware env = Raise e →
    HUB_EXCEPTIONS e = true →
    hub_exception_raised env e
| raised_fetching_rooms hub e :
    hub_query_firmware env = Return hub →
    Hub.role hub = VStr "Primary" →
    rooms_get_rooms env = Raise e →
    HUB_EXCEPTIONS e = true →
    hub_exception_raised env e
| raised_fetching_scenes hub room_data e :
    hub_query_firmware env = Return hub →
    Hub.role hub = VStr "Primary" →
    rooms_get_rooms env = Return room_data →
    scenes_get_scenes env = Raise e →
    HUB_EXCEPTIONS e = true →
    hub_exception_raised env e
| raised_fetching_shades hub room_data scene_data e :
    hub_query_firmware env = Return hub →
    Hub.role hub = VStr "Primary" →
    rooms_get_rooms env = Return room_data →
    scenes_get_scenes env = Return scene_data →
    shades_get_shades env = Raise e →
    HUB_EXCEPTIONS e = true →
    hub_exception_raised env e.

(** ** What the migration loop does, item by item *)

(** The registry after one pass of the loop body over [item]. *)
Definition migrate_item_registry (entry : ConfigEntry.t)
    (reg : gmap string RegistryEntry.t) (item : string * RegistryEntry.t)
    : gmap string RegistryEntry.t :=
  if needs_migration (ConfigEntry.unique_id entry)
                     (RegistryEntry.unique_id item.2) then
    alter (RegistryEntry.set_unique_id
             (UidStr (new_unique_id (ConfigEntry.unique_id entry)
                                    (RegistryEntry.unique_id item.2))))
          item.1 reg
  else reg.

(** The calls one pass of the loop body over [item] makes. *)
Definition migrate_item_events (entry : ConfigEntry.t)
    (item : string * RegistryEntry.t) : list Event :=
  if needs_migration (ConfigEntry.unique_id entry)
                     (RegistryEntry.unique_id item.2) then
    [EvLog "debug" "Migrating %s: %s to %s_%s"
       [item.1; uid_str (RegistryEntry.unique_id item.2);
        ConfigEntry.unique_id entry;
        uid_str (RegistryEntry.unique_id item.2)];
     EvUpdateEntity item.1
       (new_unique_id (ConfigEntry.unique_id entry)
                      (RegistryEntry.unique_id item.2))]
  else [].

(** A registry entry as the whole loop leaves it. *)
Definition migrate_registry_entry (entry : ConfigEntry.t)
    (reg_entry : RegistryEntry.t) : RegistryEntry.t :=
  if decide (RegistryEntry.config_entry_id reg_entry
             = Some (ConfigEntry.entry_id entry)) then
    if needs_migration (ConfigEntry.unique_id entry)
                       (RegistryEntry.unique_id reg_entry) then
      RegistryEntry.set_unique_id
        (UidStr (new_unique_id (ConfigEntry.unique_id entry)
                               (RegistryEntry.unique_id reg_entry)))
        reg_entry
    else reg_entry
  else reg_entry.

(** ** Concrete hubs, entries and registries *)

Definition primary_hub : Hub.t :=
  Hub.mk (VStr "Living room hub") (VStr "192.168.1.20") (VStr "Primary")
         (VStr "00:26:74:11:22:33") (VStr "A1B2C3") (VStr "2.0.1032")
         (VStr "Generation 2") (VStr "192.168.1.20") (VInt 2).

Definition secondary_hub : Hub.t :=
  Hub.mk (VStr "Bedroom hub") (VStr "192.168.1.20") (VStr "Secondary")
         (VStr "00:26:74:aa:bb:cc") (VStr "D4E5F6") (VStr "2.0.1032")
         (VStr "Generation 2") (VStr "192.168.1.20") (VInt 2).

Definition snapshot (id : Z) (name : string) : PowerviewData.t :=
  PowerviewData.mk [VInt id] {[ id := VStr name ]}.

(** A hub that answers every request. *)
Definition primary_env : Env :=
  mkEnv (Return primary_hub) (Return (snapshot 1 "Bedroom"))
        (Return (snapshot 2 "Morning")) (Return (snapshot 3 "Left shade"))
        (λ _, true) (Return tt) (Return true).

(** The same, with the hub in the role of a secondary hub. *)
Definition secondary_env : Env :=
  mkEnv (Return secondary_hub) (Return (snapshot 1 "Bedroom"))
        (Return (snapshot 2 "Morning")) (Return (snapshot 3 "Left shade"))
        (λ _, true) (Return tt) (Return true).

(** A primary hub that times out when asked for its rooms. *)
Definition timeout_env : Env :=
  mkEnv (Return primary_hub) (Raise (HubError "Timeout"))
        (Return (snapshot 2 "Morning")) (Return (snapshot 3 "Left shade"))
        (λ _, true) (Return tt) (Return true).

Definition example_registry : gmap string RegistryEntry.t :=
  {[ "cover.left" := RegistryEntry.mk (Some "entry-1") (UidInt 5);
     "cover.right" := RegistryEntry.mk (Some "entry-1") (UidStr "A1B2C3_7");
     "scene.morning" := RegistryEntry.mk (Some "entry-1") (UidStr "scene_2");
     "light.desk" := RegistryEntry.mk (Some "entry-2") (UidInt 9) ]}.

(** An entry at version 1.1, before the migration. *)
Definition example_entry : ConfigEntry.t :=
  ConfigEntry.mk "entry-1" "A1B2C3" 1 1 {[ CONF_HOST := VStr "192.168.1.20" ]}
                 None.

Definition example_world : World :=
  mkWorld example_entry example_registry [].

(** An entry at version 1.2, after the migration. *)
Definition migrated_entry : ConfigEntry.t :=
  ConfigEntry.mk "entry-1" "A1B2C3" 1 2 {[ CONF_HOST := VStr "192.168.1.20" ]}
                 None.

Definition migrated_world : World :=
  mkWorld migrated_entry example_registry [].

(** ** Further observations of a run *)

(** A call to the hub is reached and answered with the exception [e], whatever
    its class. *)
Inductive hub_call_raises (env : Env) : exception → Prop :=
| firmware_query_raises e :
    hub_query_firmware env = Raise e →
    hub_call_raises env e
| rooms_fetch_raises hub e :
    hub_query_firmware env = Return hub →
    Hub.role hub = VStr "Primary" →
    rooms_get_rooms env = Raise e →
    hub_call_raises env e
| scenes_fetch_raises hub room_data e :
    hub_query_firmware env = Return hub →
    Hub.role hub = VStr "Primary" →
    rooms_get_rooms env = Return room_data →
    scenes_get_scenes env = Raise e →
    hub_call_raises env e
| shades_fetch_raises hub room_data scene_data e :
    hub_query_firmware env = Return hub →
    Hub.role hub = VStr "Primary" →
    rooms_get_rooms env = Return room_data →
    scenes_get_scenes env = Return scene_data →
    shades_get_shades env = Raise e →
    hub_call_raises env e.

Definition is_error_log (ev : Event) : bool :=
  match ev with
  | EvLog level _ _ => bool_decide (level = "error")
  | _ => false
  end.

(** The entity updates among the calls of a run, as pairs of entity id and new
    unique id. *)
Definition entity_updates (evs : list Event) : list (string * string) :=
  omap (λ ev, match ev with
              | EvUpdateEntity entity_id new_unique_id =>
                  Some (entity_id, new_unique_id)
              | _ => None
              end) evs.

(** The device info [async_get_device_info] resolves for a hub. *)
Definition device_info_of (hub : Hub.t) : PowerviewDeviceInfo.t :=
  PowerviewDeviceInfo.mk (Hub.name hub) (Hub.mac_address hub)
    (Hub.serial_number hub) (Hub.firmware hub) (Hub.model hub) (Hub.ip hub).

(** ** Further concrete worlds *)

(** A primary hub whose scene endpoint fails with an exception outside
    [HUB_EXCEPTIONS]. *)
Definition crash_env : Env :=
  mkEnv (Return primary_hub) (Return (snapshot 1 "Bedroom"))
        (Raise (OtherError "JSONDecodeError")) (Return (snapshot 3 "Left shade"))
        (λ _, true) (Return tt) (Return true).


(** A host that fails to set up the platforms. *)
Definition forward_fail_env : Env :=
  mkEnv (Return primary_hub) (Return (snapshot 1 "Bedroom"))
        (Return (snapshot 2 "Morning")) (Return (snapshot 3 "Left shade"))
        (λ _, true) (Raise (HubError "Timeout")) (Return true).

(** An entry without a host. *)
Definition hostless_world : World :=
  mkWorld (ConfigEntry.mk "entry-1" "A1B2C3" 1 1 ∅ None) example_registry [].

(** An entry with no entity in the registry. *)
Definition bare_world : World := mkWorld example_entry ∅ [].

(** The entity update the loop body asks for on [item], if any. *)
Definition migrate_item_update (entry : ConfigEntry.t)
    (item : string * RegistryEntry.t) : option (string * string) :=
  if needs_migration (ConfigEntry.unique_id entry)
                     (RegistryEntry.unique_id item.2) then
    Some (item.1, new_unique_id (ConfigEntry.unique_id entry)
                                (RegistryEntry.unique_id item.2))
  else None.

(** ** Proof machinery for straight-line runs *)

Ltac run_step :=
  cbv beta iota zeta delta
    [async_setup_entry async_get_device_info async_unload_entry
     async_migrate_entry
     async_get_clientsession AioRequest_new Hub_new query_firmware
     get_rooms get_scenes get_shades async_update_entry_data
     async_update_entry_minor_version set_runtime_data new_coordinator
     forward_entry_setups unload_platforms connection_error
     mbind mret M_bind M_ret emit answer raise log get_entry modify_entry
     get_registry modify_registry try_except_hub subscript];
  cbn [entry registry trace fst snd].

Ltac run_branch :=
  match goal with
  | H : ?o = _ |- context [match ?o with _ => _ end] => rewrite H
  | |- context [match ?d !! CONF_HOST with _ => _ end] =>
      destruct (d !! CONF_HOST) eqn:?
  | |- context [match hub_query_firmware ?env with _ => _ end] =>
      destruct (hub_query_firmware env) eqn:?
  | |- context [if HUB_EXCEPTIONS ?e then _ else _] =>
      destruct (HUB_EXCEPTIONS e) eqn:?
  | |- context [decide (Hub.role ?h ≠ ?r)] =>
      destruct (decide (Hub.role h ≠ r))
  | |- context [match rooms_get_rooms ?env with _ => _ end] =>
      destruct (rooms_get_rooms env) eqn:?
  | |- context [match scenes_get_scenes ?env with _ => _ end] =>
      destruct (scenes_get_scenes env) eqn:?
  | |- context [match shades_get_shades ?env with _ => _ end] =>
      destruct (shades_get_shades env) eqn:?
  | |- context [device_info_bool ?env ?d] =>
      destruct (device_info_bool env d) eqn:?; cbn [negb]
  | |- context [decide ?P] => destruct (decide P)
  | |- context [match async_forward_entry_setups ?env with _ => _ end] =>
      destruct (async_forward_entry_setups env) eqn:?
  | |- context [match async_unload_platforms ?env with _ => _ end] =>
      destruct (async_unload_platforms env) eqn:?
  end.

Ltac run_events :=
  rewrite <- ?app_assoc; rewrite ?drop_app_length, ?drop_all; cbn [app].

Ltac run :=
  unfold events, result, final; repeat (run_step; try run_branch);
  run_events;
  cbn [ConfigEntry.data ConfigEntry.runtime_data ConfigEntry.set_data
       ConfigEntry.set_runtime_data];
  repeat match goal with
         | H : ¬ (_ ≠ _) |- _ => apply dec_stable in H
         end.


(** ** The device info resolver *)

(** C4: for every hub handle, [async_get_device_info] returns the device info
    record whose fields are the hub's attributes as they are: name, MAC
    address, serial number, firmware and model under the same names, and the
    hub's [ip] as [hub_address]; the config entry and the registry are left
    alone. *)
Theorem device_info_maps_hub_attributes hub w :
  result (async_get_device_info hub) w =
    Return {| PowerviewDeviceInfo.name := Hub.name hub;
              PowerviewDeviceInfo.mac_address := Hub.mac_address hub;
              PowerviewDeviceInfo.serial_number := Hub.serial_number hub;
              PowerviewDeviceInfo.firmware := Hub.firmware hub;
              PowerviewDeviceInfo.model := Hub.model hub;
              PowerviewDeviceInfo.hub_address := Hub.ip hub |} ∧
  entry (final (async_get_device_info hub) w) = entry w ∧
  registry (final (async_get_device_info hub) w) = registry w.
Proof. by run. Qed.

(** ** Entry setup *)

(** C1: when the hub at the configured address answers the firmware query and
    its role is not the string "Primary", [async_setup_entry] returns [False];
    in that run no room, scene or shade snapshot is fetched, no coordinator is
    created, no platform is forwarded, and [entry.runtime_data] is not
    assigned (the entry is as it was). *)
Theorem setup_refuses_non_primary_hub env w hub_address hub :
  ConfigEntry.data (entry w) !! CONF_HOST = Some hub_address →
  hub_query_firmware env = Return hub →
  Hub.role hub ≠ VStr "Primary" →
  result (async_setup_entry env) w = Return false ∧
  filter is_snapshot_fetch (events (async_setup_entry env) w) = [] ∧
  filter is_coordinator_creation (events (async_setup_entry env) w) = [] ∧
  filter is_platform_forward (events (async_setup_entry env) w) = [] ∧
  filter is_runtime_data_assignment (events (async_setup_entry env) w) = [] ∧
  entry (final (async_setup_entry env) w) = entry w.
Proof. intros Hh Hq Hr. by run. Qed.

Lemma setup_refuses_non_primary_hub_witness :
  ConfigEntry.data (entry example_world) !! CONF_HOST
    = Some (VStr "192.168.1.20") ∧
  hub_query_firmware secondary_env = Return secondary_hub ∧
  Hub.role secondary_hub ≠ VStr "Primary" ∧
  result (async_setup_entry secondary_env) example_world = Return false ∧
  filter is_snapshot_fetch
    (events (async_setup_entry secondary_env) example_world) = [] ∧
  filter is_coordinator_creation
    (events (async_setup_entry secondary_env) example_world) = [] ∧
  filter is_platform_forward
    (events (async_setup_entry secondary_env) example_world) = [] ∧
  filter is_runtime_data_assignment
    (events (async_setup_entry secondary_env) example_world) = [] ∧
  entry (final (async_setup_entry secondary_env) example_world)
    = entry example_world.
Proof.
  assert (ConfigEntry.data (entry example_world) !! CONF_HOST
          = Some (VStr "192.168.1.20")) as Hh by (vm_compute; reflexivity).
  assert (Hub.role secondary_hub ≠ VStr "Primary") as Hr by discriminate.
  split; [exact Hh|]. split; [reflexivity|]. split; [exact Hr|].
  exact (setup_refuses_non_primary_hub secondary_env example_world
           (VStr "192.168.1.20") secondary_hub Hh eq_refl Hr).
Defined.

(** C2, as stated, fails: with a hub in the role "Secondary" the run stops
    after the role check, so the steps taken are the first five of the
    sequence and no snapshot is fetched. *)
Lemma setup_steps_secondary_hub_stops_early :
  let pv_request :=
    pv_request_of (VStr "192.168.1.20") (ConfigEntry.data example_entry) in
  filter is_hub_step (events (async_setup_entry secondary_env) example_world)
    = [EvAioRequest pv_request; EvHub pv_request; EvQueryFirmware;
       EvGetDeviceInfo; EvCheckRole] ∧
  filter is_hub_step (events (async_setup_entry secondary_env) example_world)
    ≠ setup_steps pv_request ∧
  filter is_snapshot_fetch
    (events (async_setup_entry secondary_env) example_world) = [].
Proof.
  split; [|split].
  - vm_compute. reflexivity.
  - intros H%(f_equal length). vm_compute in H. discriminate H.
  - vm_compute. reflexivity.
Qed.

(** C2, amended: on every run with a configured hub address the steps that
    address the hub are an initial segment of the fixed sequence (request
    handle, hub handle, firmware query, device info, role check, rooms,
    scenes, shades), in which no step occurs twice; the segment is the whole
    sequence exactly when the firmware query answers, the role is "Primary"
    and the room and scene fetches answer. *)
Theorem setup_steps_in_order env w hub_address :
  ConfigEntry.data (entry w) !! CONF_HOST = Some hub_address →
  let steps := filter is_hub_step (events (async_setup_entry env) w) in
  let all_steps :=
    setup_steps (pv_request_of hub_address (ConfigEntry.data (entry w))) in
  steps `prefix_of` all_steps ∧
  NoDup all_steps ∧
  (steps = all_steps ↔
   ∃ hub room_data scene_data,
     hub_query_firmware env = Return hub ∧
     Hub.role hub = VStr "Primary" ∧
     rooms_get_rooms env = Return room_data ∧
     scenes_get_scenes env = Return scene_data).
Proof.
  intros Hh steps all_steps. subst steps all_steps.
  split; [|split].
  - run; by eexists.
  - unfold setup_steps.
    repeat (apply NoDup_cons; split;
            [rewrite ?elem_of_cons, elem_of_nil; intuition discriminate|]).
    apply NoDup_nil_2.
  - run.
    all: split;
      [ intros Heq; first [discriminate Heq | eauto 10]
      | intros (hub & rd & sd & Hq & Hrole & Hr & Hs);
        first [congruence | reflexivity] ].
Qed.

Lemma setup_steps_in_order_witness :
  ConfigEntry.data (entry example_world) !! CONF_HOST
    = Some (VStr "192.168.1.20") ∧
  filter is_hub_step (events (async_setup_entry primary_env) example_world)
    `prefix_of`
    setup_steps (pv_request_of (VStr "192.168.1.20")
                               (ConfigEntry.data (entry example_world))).
Proof.
  assert (ConfigEntry.data (entry example_world) !! CONF_HOST
          = Some (VStr "192.168.1.20")) as Hh by (vm_compute; reflexivity).
  split; [exact Hh|].
  exact (proj1 (setup_steps_in_order primary_env example_world
                  (VStr "192.168.1.20") Hh)).
Defined.

(** C3: in every run of [async_setup_entry] that returns [True],
    [entry.runtime_data] is assigned exactly once, to the aggregate of the
    request handle the run created, the processed room, scene and shade
    mappings, the coordinator the run created and the resolved device info;
    the assignment is the last call but one, and the only forwarding of
    platforms is the call after it. *)
Theorem setup_success_runtime_data env w :
  result (async_setup_entry env) w = Return true →
  ∃ hub_address hub room_data scene_data shade_data pre,
    ConfigEntry.data (entry w) !! CONF_HOST = Some hub_address ∧
    hub_query_firmware env = Return hub ∧
    rooms_get_rooms env = Return room_data ∧
    scenes_get_scenes env = Return scene_data ∧
    shades_get_shades env = Return shade_data ∧
    let pv_request := pv_request_of hub_address (ConfigEntry.data (entry w)) in
    let coordinator :=
      PowerviewShadeUpdateCoordinator.mk
        (Shades.mk pv_request) hub
        (Some (PowerviewShadeData.mk (Some shade_data))) in
    let device_info :=
      PowerviewDeviceInfo.mk (Hub.name hub) (Hub.mac_address hub)
        (Hub.serial_number hub) (Hub.firmware hub) (Hub.model hub)
        (Hub.ip hub) in
    let runtime_data :=
      PowerviewEntryData.mk pv_request
        (PowerviewData.processed room_data)
        (PowerviewData.processed scene_data)
        (PowerviewData.processed shade_data)
        coordinator device_info in
    events (async_setup_entry env) w =
      pre ++ [EvSetRuntimeData runtime_data; EvForwardEntrySetups PLATFORMS] ∧
    EvAioRequest pv_request ∈ pre ∧
    EvCoordinator coordinator ∈ pre ∧
    filter is_runtime_data_assignment pre = [] ∧
    filter is_platform_forward pre = [] ∧
    ConfigEntry.runtime_data (entry (final (async_setup_entry env) w)) =
      Some runtime_data.
Proof.
  run; intros Hres; try discriminate Hres.
  all: do 5 eexists.
  all: lazymatch goal with
       | |- ∃ pre, _ ∧ _ ∧ _ ∧ _ ∧ _ ∧ (?l = _) ∧ _ =>
           exists (take (length l - 2)%nat l)
       end.
  all: cbn [length Nat.sub take app].
  all: repeat (split; [reflexivity|]).
  all: do 2 (split;
             [repeat first [apply list_elem_of_here
                           |apply list_elem_of_further]|]).
  all: repeat split; reflexivity.
Qed.

Lemma setup_success_runtime_data_witness :
  result (async_setup_entry primary_env) example_world = Return true ∧
  ∃ runtime_data pre,
    events (async_setup_entry primary_env) example_world =
      pre ++ [EvSetRuntimeData runtime_data; EvForwardEntrySetups PLATFORMS] ∧
    filter is_runtime_data_assignment pre = [] ∧
    ConfigEntry.runtime_data
      (entry (final (async_setup_entry primary_env) example_world)) =
      Some runtime_data.
Proof.
  assert (result (async_setup_entry primary_env) example_world = Return true)
    as Hres by (vm_compute; reflexivity).
  split; [exact Hres|].
  destruct (setup_success_runtime_data primary_env example_world Hres)
    as (hub_address & hub & room_data & scene_data & shade_data & pre
        & _ & _ & _ & _ & _ & Hev & _ & _ & Hpre & _ & Hrd).
  eexists _, pre. split; [exact Hev|]. split; [exact Hpre|exact Hrd].
Defined.

(** C8: with a configured hub address, if a hub exception is raised by the
    firmware query or by the fetch of the rooms, scenes or shades,
    [async_setup_entry] raises [ConfigEntryNotReady] with the hub address (and
    the exception's text) in its message; the config entry, with its data and
    its runtime data, and the registry are as before, and no platform is
    forwarded. *)
Theorem setup_hub_exception env w hub_address e :
  ConfigEntry.data (entry w) !! CONF_HOST = Some hub_address →
  hub_exception_raised env e →
  result (async_setup_entry env) w =
    Raise (ConfigEntryNotReady
             ("Connection error to PowerView hub " +:+ py_str hub_address
                +:+ ": " +:+ exception_str e)) ∧
  entry (final (async_setup_entry env) w) = entry w ∧
  registry (final (async_setup_entry env) w) = registry w ∧
  filter is_runtime_data_assignment (events (async_setup_entry env) w) = [] ∧
  filter is_entry_update (events (async_setup_entry env) w) = [] ∧
  filter is_platform_forward (events (async_setup_entry env) w) = [].
Proof. intros Hh Hr. destruct Hr; by run. Qed.

Lemma setup_hub_exception_witness :
  ConfigEntry.data (entry example_world) !! CONF_HOST
    = Some (VStr "192.168.1.20") ∧
  hub_exception_raised timeout_env (HubError "Timeout") ∧
  result (async_setup_entry timeout_env) example_world =
    Raise (ConfigEntryNotReady
             "Connection error to PowerView hub 192.168.1.20: Timeout") ∧
  entry (final (async_setup_entry timeout_env) example_world)
    = entry example_world.
Proof.
  assert (ConfigEntry.data (entry example_world) !! CONF_HOST
          = Some (VStr "192.168.1.20")) as Hh by (vm_compute; reflexivity).
  assert (hub_exception_raised timeout_env (HubError "Timeout")) as Hr
    by (apply (raised_fetching_rooms _ primary_hub); reflexivity).
  split; [exact Hh|]. split; [exact Hr|].
  destruct (setup_hub_exception timeout_env example_world
              (VStr "192.168.1.20") (HubError "Timeout") Hh Hr)
    as (Hres & Hentry & _).
  split; [exact Hres|exact Hentry].
Defined.

(** C10: on a setup that returns [True], if the entry's data already has the
    API version key the data is left as it was (the host is not asked to
    update the entry); if it has not, the data after the run is the data
    before with the hub's [api_version] stored under that key, every other
    key keeping its value. *)
Theorem setup_api_version_key env w :
  result (async_setup_entry env) w = Return true →
  let config := ConfigEntry.data (entry w) in
  let config' := ConfigEntry.data (entry (final (async_setup_entry env) w)) in
  (is_Some (config !! CONF_API_VERSION) →
   config' = config ∧
   filter is_entry_update (events (async_setup_entry env) w) = []) ∧
  (config !! CONF_API_VERSION = None →
   ∃ hub,
     hub_query_firmware env = Return hub ∧
     config' = <[CONF_API_VERSION := Hub.api_version hub]> config ∧
     config' !! CONF_API_VERSION = Some (Hub.api_version hub) ∧
     ∀ key, key ≠ CONF_API_VERSION → config' !! key = config !! key).
Proof.
  run; intros Hres; try discriminate Hres.
  all: split; [intros Hsome | intros Hnone].
  all: try (exfalso; first [ by eapply is_Some_None; erewrite <- e
                           | congruence ]).
  - eexists. split; [reflexivity|]. split; [reflexivity|].
    split; [apply lookup_insert_eq|].
    intros key Hkey. by rewrite lookup_insert_ne.
  - done.
Qed.

Lemma setup_api_version_key_witness :
  result (async_setup_entry primary_env) example_world = Return true ∧
  ConfigEntry.data
    (entry (final (async_setup_entry primary_env) example_world))
    !! CONF_API_VERSION = Some (VInt 2) ∧
  ConfigEntry.data
    (entry (final (async_setup_entry primary_env) example_world))
    !! CONF_HOST = Some (VStr "192.168.1.20").
Proof.
  assert (result (async_setup_entry primary_env) example_world = Return true)
    as Hres by (vm_compute; reflexivity).
  split; [exact Hres|].
  destruct (setup_api_version_key primary_env example_world Hres)
    as [_ Hnone].
  destruct Hnone as (hub & Hq & _ & Hv & Hother); [vm_compute; reflexivity|].
  injection Hq as <-. split; [exact Hv|].
  rewrite Hother by discriminate. vm_compute. reflexivity.
Defined.

(** ** Entry unload *)

(** C6: [async_unload_entry] asks the host once to unload the platforms
    button, cover, number, scene, select and sensor, returns the host's answer
    as it is and touches nothing else; and whenever [async_setup_entry]
    forwards platforms, it forwards that same list. *)
Theorem unload_tears_down_forwarded_platforms env w env' w' :
  events (async_unload_entry env) w
    = [EvUnloadPlatforms [BUTTON; COVER; NUMBER; SCENE; SELECT; SENSOR]] ∧
  result (async_unload_entry env) w = async_unload_platforms env ∧
  entry (final (async_unload_entry env) w) = entry w ∧
  registry (final (async_unload_entry env) w) = registry w ∧
  Forall (λ ev, ev = EvForwardEntrySetups
                       [BUTTON; COVER; NUMBER; SCENE; SELECT; SENSOR])
         (filter is_platform_forward (events (async_setup_entry env') w')).
Proof.
  split; [by run|]. split; [by run|]. split; [by run|]. split; [by run|].
  run; cbn; repeat constructor.
Qed.


(** ** Unique-id migration *)

Lemma startswith_append p s : startswith (p +:+ s) p = true.
Proof.
  unfold startswith. induction p as [|a p IH]; simpl.
  - by destruct s.
  - destruct (Ascii.ascii_dec a a); [exact IH | done].
Qed.

Lemma needs_migration_new_unique_id p u :
  needs_migration p (UidStr (new_unique_id p u)) = false.
Proof. unfold new_unique_id. simpl. by rewrite startswith_append. Qed.

(** The loop of [_migrate_unique_ids], for a fixed config entry. *)
Section migration_loop.
Variable e : ConfigEntry.t.

Lemma for_each_migrate l w :
  for_each l (migrate_body e) w =
    (Return tt,
     mkWorld (entry w) (foldl (migrate_item_registry e) (registry w) l)
             (trace w ++ concat (migrate_item_events e <$> l))).
Proof.
  revert w. induction l as [|[k re] l IH]; intros w; simpl.
  - rewrite app_nil_r. by destruct w.
  - unfold mbind, M_bind, migrate_body, migrate_item_registry,
      migrate_item_events. simpl.
    destruct (needs_migration _ _); simpl.
    + unfold log, async_update_entity, emit, modify_registry, mbind, M_bind.
      simpl. rewrite IH. simpl. by rewrite <- !app_assoc.
    + unfold mret, M_ret. by rewrite IH.
Qed.

Lemma migrate_item_registry_lookup_ne reg item k :
  item.1 ≠ k → migrate_item_registry e reg item !! k = reg !! k.
Proof.
  intros Hne. unfold migrate_item_registry.
  destruct (needs_migration _ _); [|done]. by rewrite lookup_alter_ne.
Qed.

Lemma foldl_migrate_lookup_notin l reg k :
  k ∉ l.*1 → foldl (migrate_item_registry e) reg l !! k = reg !! k.
Proof.
  revert reg. induction l as [|[k' re] l IH]; intros reg Hk; [done|].
  rewrite fmap_cons in Hk. cbn [foldl fst] in *.
  apply not_elem_of_cons in Hk as [Hne Hk].
  rewrite IH by done. by apply migrate_item_registry_lookup_ne.
Qed.

Lemma foldl_migrate_lookup_in l reg k re :
  NoDup l.*1 → (k, re) ∈ l →
  foldl (migrate_item_registry e) reg l !! k =
    (if needs_migration (ConfigEntry.unique_id e) (RegistryEntry.unique_id re)
     then RegistryEntry.set_unique_id
            (UidStr (new_unique_id (ConfigEntry.unique_id e)
                                   (RegistryEntry.unique_id re)))
     else id) <$> reg !! k.
Proof.
  revert reg. induction l as [|[k' re'] l IH]; intros reg Hnd Hin.
  - by apply elem_of_nil in Hin.
  - rewrite fmap_cons in Hnd. cbn [foldl fst] in *.
    apply NoDup_cons in Hnd as [Hk' Hnd].
    apply elem_of_cons in Hin as [Heq|Hin].
    + simplify_eq. rewrite foldl_migrate_lookup_notin by done.
      unfold migrate_item_registry. simpl.
      destruct (needs_migration _ _).
      * by rewrite lookup_alter_eq.
      * by destruct (reg !! k').
    + assert (k ≠ k') as Hne.
      { intros ->. apply Hk'. by apply (list_elem_of_fmap_2 fst _ (k', re)). }
      rewrite IH by done. by rewrite migrate_item_registry_lookup_ne.
Qed.

Lemma migrate_registry_entry_settled re :
  RegistryEntry.config_entry_id (migrate_registry_entry e re)
    = RegistryEntry.config_entry_id re ∧
  (RegistryEntry.config_entry_id re = Some (ConfigEntry.entry_id e) →
   needs_migration (ConfigEntry.unique_id e)
     (RegistryEntry.unique_id (migrate_registry_entry e re)) = false).
Proof.
  unfold migrate_registry_entry.
  destruct (decide _) as [Hc|Hc]; [|by split].
  destruct (needs_migration _ _) eqn:Hn; [|by split].
  split; [done|]. intros _. apply needs_migration_new_unique_id.
Qed.

Lemma migrate_registry_entry_idemp re :
  migrate_registry_entry e (migrate_registry_entry e re)
    = migrate_registry_entry e re.
Proof.
  destruct (migrate_registry_entry_settled re) as [Hc Hn].
  unfold migrate_registry_entry at 1. rewrite Hc.
  destruct (decide _) as [Hc'|]; [|done]. by rewrite Hn.
Qed.

Lemma migrate_item_events_settled l :
  Forall (λ item, needs_migration (ConfigEntry.unique_id e)
                    (RegistryEntry.unique_id item.2) = false) l →
  concat (migrate_item_events e <$> l) = [].
Proof.
  induction 1 as [|item l Hn _ IH]; [done|].
  rewrite fmap_cons. cbn [concat]. rewrite IH.
  unfold migrate_item_events. by rewrite Hn.
Qed.

Lemma migrate_item_events_no_entry_update l :
  filter is_entry_update (concat (migrate_item_events e <$> l)) = [].
Proof.
  induction l as [|item l IH]; [done|].
  rewrite fmap_cons. cbn [concat]. rewrite filter_app, IH, app_nil_r.
  unfold migrate_item_events. by destruct (needs_migration _ _).
Qed.

End migration_loop.

Lemma elem_of_entries_for_config_entry reg cid k re :
  (k, re) ∈ async_entries_for_config_entry reg cid ↔
  reg !! k = Some re ∧ RegistryEntry.config_entry_id re = Some cid.
Proof.
  unfold async_entries_for_config_entry.
  rewrite list_elem_of_filter, elem_of_map_to_list. simpl. tauto.
Qed.

Lemma NoDup_entries_for_config_entry reg cid :
  NoDup (async_entries_for_config_entry reg cid).*1.
Proof.
  unfold async_entries_for_config_entry.
  apply (sublist_NoDup _ (map_to_list reg).*1).
  - apply NoDup_fst_map_to_list.
  - apply fmap_sublist, sublist_filter.
Qed.

(** One run of [_migrate_unique_ids]: it returns, leaves the config entry
    alone, maps [migrate_registry_entry] over the registry and makes the calls
    of the loop body, item by item. *)
Lemma migrate_unique_ids_run w :
  _migrate_unique_ids w =
    (Return tt,
     mkWorld (entry w)
             (migrate_registry_entry (entry w) <$> registry w)
             (trace w ++
              concat (migrate_item_events (entry w) <$>
                      async_entries_for_config_entry
                        (registry w) (ConfigEntry.entry_id (entry w))))).
Proof.
  unfold _migrate_unique_ids, mbind, M_bind, get_registry, get_entry.
  rewrite for_each_migrate. cbn [entry registry trace]. do 2 f_equal.
  apply map_eq. intros k. rewrite lookup_fmap.
  destruct (registry w !! k) as [re|] eqn:Hk.
  - destruct (decide (RegistryEntry.config_entry_id re
                      = Some (ConfigEntry.entry_id (entry w)))) as [Hc|Hc].
    + rewrite (foldl_migrate_lookup_in _ _ _ k re).
      * rewrite Hk. unfold migrate_registry_entry. simpl.
        rewrite decide_True by done. by destruct (needs_migration _ _).
      * apply NoDup_entries_for_config_entry.
      * by apply elem_of_entries_for_config_entry.
    + rewrite foldl_migrate_lookup_notin.
      * rewrite Hk. unfold migrate_registry_entry. simpl.
        by rewrite decide_False.
      * intros ([k' re'] & -> & Hin)%list_elem_of_fmap.
        apply elem_of_entries_for_config_entry in Hin as [Hin Hc'].
        simpl in *. congruence.
  - rewrite foldl_migrate_lookup_notin; [by rewrite Hk|].
    intros ([k' re'] & -> & Hin)%list_elem_of_fmap.
    apply elem_of_entries_for_config_entry in Hin as [Hin _].
    simpl in *. congruence.
Qed.

Lemma unique_id_settled uid u :
  needs_migration uid u = false ↔
  ∃ s, u = UidStr s ∧ startswith s uid = true.
Proof.
  destruct u as [z|s]; simpl.
  - split; [done|]. by intros (s & ? & _).
  - rewrite negb_false_iff. split; [eauto|]. by intros (? & [= <-] & ?).
Qed.

Lemma unique_id_unsettled uid u :
  needs_migration uid u = true ↔
  (∃ z, u = UidInt z) ∨ (∃ s, u = UidStr s ∧ startswith s uid = false).
Proof.
  destruct u as [z|s]; simpl.
  - split; eauto.
  - rewrite negb_true_iff. split; [eauto|].
    intros [(? & [=])|(? & [= <-] & ?)]; done.
Qed.

Lemma migrate_entry_run_1_1 w :
  ConfigEntry.version (entry w) = 1 →
  ConfigEntry.minor_version (entry w) = 1 →
  async_migrate_entry w =
    (Return true,
     mkWorld
       (ConfigEntry.set_minor_version 2 (entry w))
       (migrate_registry_entry (entry w) <$> registry w)
       (trace w ++
        EvLog "debug" "Migrating from version %s.%s" ["1"; "1"] ::
        concat (migrate_item_events (entry w) <$>
                async_entries_for_config_entry
                  (registry w) (ConfigEntry.entry_id (entry w))) ++
        [EvUpdateEntryMinorVersion 2;
         EvLog "debug" "Migrated to version %s.%s" ["1"; "2"]])).
Proof.
  intros Hv Hm. run_step. rewrite Hv, Hm.
  destruct (decide (1 = 1)); [|done]. run_step.
  rewrite migrate_unique_ids_run. run_step.
  cbn [ConfigEntry.version ConfigEntry.minor_version
       ConfigEntry.set_minor_version]. rewrite Hv.
  do 2 f_equal. by rewrite <- !app_assoc.
Qed.

Lemma migrate_entry_run_other w :
  ConfigEntry.version (entry w) ≠ 1 ∨ ConfigEntry.minor_version (entry w) ≠ 1 →
  async_migrate_entry w =
    (Return true,
     mkWorld (entry w) (registry w)
       (trace w ++
        [EvLog "debug" "Migrating from version %s.%s"
           [pretty (ConfigEntry.version (entry w));
            pretty (ConfigEntry.minor_version (entry w))];
         EvLog "debug" "Migrated to version %s.%s"
           [pretty (ConfigEntry.version (entry w));
            pretty (ConfigEntry.minor_version (entry w))]])).
Proof.
  intros Hv. run_step.
  destruct (decide (ConfigEntry.version (entry w) = 1)) as [Hv1|Hv1];
    [destruct (decide (ConfigEntry.minor_version (entry w) = 1)) as [Hm1|Hm1]|].
  - by destruct Hv.
  - run_step. by rewrite <- !app_assoc.
  - run_step. by rewrite <- !app_assoc.
Qed.

Lemma migrate_entry_returns_true w : result async_migrate_entry w = Return true.
Proof.
  unfold result.
  destruct (decide (ConfigEntry.version (entry w) = 1)) as [Hv|Hv];
    [destruct (decide (ConfigEntry.minor_version (entry w) = 1)) as [Hm|Hm]|].
  - by rewrite migrate_entry_run_1_1.
  - rewrite migrate_entry_run_other; auto.
  - rewrite migrate_entry_run_other; auto.
Qed.

(** C5: for every config entry at version 1 with minor version 1,
    [async_migrate_entry] rewrites the unique id of each registry entry of
    that config entry that is an integer, or a string not starting with the
    entry's unique id, to the string made of the entry's unique id, an
    underscore and the old unique id; after these updates it sets the
    entry's minor version to 2; and [async_migrate_entry] returns [True] for
    every entry. *)
Theorem migrate_entry_rewrites_unique_ids w :
  ConfigEntry.version (entry w) = 1 →
  ConfigEntry.minor_version (entry w) = 1 →
  let uid := ConfigEntry.unique_id (entry w) in
  let w' := final async_migrate_entry w in
  (∀ entity_id reg_entry,
     registry w !! entity_id = Some reg_entry →
     RegistryEntry.config_entry_id reg_entry
       = Some (ConfigEntry.entry_id (entry w)) →
     (∃ z, RegistryEntry.unique_id reg_entry = UidInt z) ∨
     (∃ s, RegistryEntry.unique_id reg_entry = UidStr s ∧
           startswith s uid = false) →
     registry w' !! entity_id =
       Some (RegistryEntry.mk
               (RegistryEntry.config_entry_id reg_entry)
               (UidStr (uid +:+ "_" +:+
                        uid_str (RegistryEntry.unique_id reg_entry))))) ∧
  ConfigEntry.minor_version (entry w') = 2 ∧
  (∃ updates post,
     events async_migrate_entry w
       = updates ++ EvUpdateEntryMinorVersion 2 :: post ∧
     filter is_entry_update updates = [] ∧
     filter is_entity_update post = []) ∧
  (∀ w0, result async_migrate_entry w0 = Return true).
Proof.
  intros Hv Hm uid w'. subst uid w'. unfold events, final.
  rewrite (migrate_entry_run_1_1 w Hv Hm). cbn [snd entry registry trace].
  split; [|split; [|split]].
  - intros k re Hk Hc Hn%unique_id_unsettled.
    rewrite lookup_fmap, Hk. cbn [fmap option_fmap option_map].
    unfold migrate_registry_entry.
    rewrite decide_True by done. by rewrite Hn.
  - done.
  - rewrite drop_app_length. eexists (_ :: _), [_]. split; [reflexivity|].
    split; [|done]. rewrite filter_cons. cbn.
    apply migrate_item_events_no_entry_update.
  - apply migrate_entry_returns_true.
Qed.

Lemma migrate_entry_rewrites_unique_ids_witness :
  ConfigEntry.version (entry example_world) = 1 ∧
  ConfigEntry.minor_version (entry example_world) = 1 ∧
  registry (final async_migrate_entry example_world) !! "cover.left"
    = Some (RegistryEntry.mk (Some "entry-1") (UidStr "A1B2C3_5")) ∧
  registry (final async_migrate_entry example_world) !! "scene.morning"
    = Some (RegistryEntry.mk (Some "entry-1") (UidStr "A1B2C3_scene_2")) ∧
  ConfigEntry.minor_version (entry (final async_migrate_entry example_world))
    = 2.
Proof.
  destruct (migrate_entry_rewrites_unique_ids example_world eq_refl eq_refl)
    as (Hreg & Hminor & _ & _).
  split; [reflexivity|]. split; [reflexivity|].
  split; [|split; [|exact Hminor]].
  - apply (Hreg "cover.left" (RegistryEntry.mk (Some "entry-1") (UidInt 5))).
    + vm_compute. reflexivity.
    + reflexivity.
    + left. exists 5. reflexivity.
  - apply (Hreg "scene.morning"
                (RegistryEntry.mk (Some "entry-1") (UidStr "scene_2"))).
    + vm_compute. reflexivity.
    + reflexivity.
    + right. exists "scene_2". split; reflexivity.
Defined.

(** C7: for every config entry whose version is not 1 or whose minor version
    is not 1, [async_migrate_entry] returns [True] and leaves the config entry
    and the whole entity registry as they were, asking the host for no
    update. *)
Theorem migrate_entry_other_versions w :
  ConfigEntry.version (entry w) ≠ 1 ∨ ConfigEntry.minor_version (entry w) ≠ 1 →
  result async_migrate_entry w = Return true ∧
  entry (final async_migrate_entry w) = entry w ∧
  registry (final async_migrate_entry w) = registry w ∧
  filter is_entity_update (events async_migrate_entry w) = [] ∧
  filter is_entry_update (events async_migrate_entry w) = [].
Proof.
  intros Hv. unfold result, events, final.
  rewrite (migrate_entry_run_other w Hv). cbn [fst snd entry registry trace].
  by rewrite drop_app_length.
Qed.

Lemma migrate_entry_other_versions_witness :
  (ConfigEntry.version (entry migrated_world) ≠ 1 ∨
   ConfigEntry.minor_version (entry migrated_world) ≠ 1) ∧
  result async_migrate_entry migrated_world = Return true ∧
  entry (final async_migrate_entry migrated_world) = entry migrated_world ∧
  registry (final async_migrate_entry migrated_world)
    = registry migrated_world ∧
  filter is_entity_update (events async_migrate_entry migrated_world) = [] ∧
  filter is_entry_update (events async_migrate_entry migrated_world) = [].
Proof.
  assert (ConfigEntry.version (entry migrated_world) ≠ 1 ∨
          ConfigEntry.minor_version (entry migrated_world) ≠ 1) as Hv
    by (right; discriminate).
  split; [exact Hv|].
  exact (migrate_entry_other_versions migrated_world Hv).
Defined.

(** C9: [_migrate_unique_ids] is idempotent: after one run every registry
    entry of the config entry has a string unique id that starts with the
    entry's unique id, and a second run on the resulting world makes no call
    at all (so no entity update) and leaves the world as it is. *)
Theorem migrate_unique_ids_idempotent w :
  let w1 := final _migrate_unique_ids w in
  (∀ entity_id reg_entry,
     registry w1 !! entity_id = Some reg_entry →
     RegistryEntry.config_entry_id reg_entry
       = Some (ConfigEntry.entry_id (entry w)) →
     ∃ s, RegistryEntry.unique_id reg_entry = UidStr s ∧
          startswith s (ConfigEntry.unique_id (entry w)) = true) ∧
  events _migrate_unique_ids w1 = [] ∧
  filter is_entity_update (events _migrate_unique_ids w1) = [] ∧
  final _migrate_unique_ids w1 = w1.
Proof.
  intros w1.
  assert (∀ entity_id reg_entry,
     registry w1 !! entity_id = Some reg_entry →
     RegistryEntry.config_entry_id reg_entry
       = Some (ConfigEntry.entry_id (entry w)) →
     needs_migration (ConfigEntry.unique_id (entry w))
                     (RegistryEntry.unique_id reg_entry) = false) as Hsettled.
  { subst w1. unfold final. rewrite migrate_unique_ids_run.
    cbn [snd registry]. intros k re' Hk Hc.
    rewrite lookup_fmap in Hk.
    destruct (registry w !! k) as [re|]; [|done].
    injection Hk as <-.
    destruct (migrate_registry_entry_settled (entry w) re) as [Hc' Hn].
    apply Hn. congruence. }
  assert (events _migrate_unique_ids w1 = []) as Hev.
  { unfold events, final. rewrite migrate_unique_ids_run. cbn [snd trace].
    rewrite drop_app_length. apply migrate_item_events_settled.
    apply Forall_forall. intros [k re] Hin.
    apply elem_of_entries_for_config_entry in Hin as [Hk Hc].
    subst w1. unfold final in *. rewrite migrate_unique_ids_run in *.
    cbn [snd entry registry] in *. by apply (Hsettled k). }
  split; [|split; [|split]].
  - intros k re Hk Hc. apply unique_id_settled. by apply (Hsettled k).
  - exact Hev.
  - by rewrite Hev.
  - unfold events, final in Hev. unfold final at 1.
    rewrite migrate_unique_ids_run in *. cbn [snd trace] in *.
    rewrite drop_app_length in Hev. rewrite Hev, app_nil_r.
    subst w1. unfold final. rewrite migrate_unique_ids_run.
    cbn [snd entry registry trace]. f_equal.
    rewrite <- map_fmap_compose. apply map_fmap_ext. intros k re _.
    apply migrate_registry_entry_idemp.
Qed.

(** ** Entry setup: the other ways a run can end *)

(** X1: without a host in the entry's data, [async_setup_entry] raises
    [KeyError] for the host key before making any call; the world is left as
    it was. *)
Theorem setup_without_host env w :
  ConfigEntry.data (entry w) !! CONF_HOST = None →
  result (async_setup_entry env) w = Raise (KeyError CONF_HOST) ∧
  events (async_setup_entry env) w = [] ∧
  final (async_setup_entry env) w = w.
Proof.
  intros Hh. unfold events, result, final. run_step. rewrite Hh. run_step.
  rewrite drop_all. by destruct w.
Qed.

Lemma setup_without_host_witness :
  ConfigEntry.data (entry hostless_world) !! CONF_HOST = None ∧
  result (async_setup_entry primary_env) hostless_world
    = Raise (KeyError "host") ∧
  events (async_setup_entry primary_env) hostless_world = [] ∧
  final (async_setup_entry primary_env) hostless_world = hostless_world.
Proof.
  assert (ConfigEntry.data (entry hostless_world) !! CONF_HOST = None) as Hh
    by (vm_compute; reflexivity).
  split; [exact Hh|]. exact (setup_without_host primary_env hostless_world Hh).
Defined.

(** X2: an exception outside [HUB_EXCEPTIONS] raised by the firmware query or
    by a snapshot fetch is not turned into [ConfigEntryNotReady]: the run
    raises that very exception; entry and registry are as before and nothing
    is forwarded. *)
Theorem setup_other_exception_propagates env w hub_address e :
  ConfigEntry.data (entry w) !! CONF_HOST = Some hub_address →
  hub_call_raises env e →
  HUB_EXCEPTIONS e = false →
  result (async_setup_entry env) w = Raise e ∧
  entry (final (async_setup_entry env) w) = entry w ∧
  registry (final (async_setup_entry env) w) = registry w ∧
  filter is_platform_forward (events (async_setup_entry env) w) = [].
Proof. intros Hh Hr He. destruct Hr; by run. Qed.

Lemma setup_other_exception_propagates_witness :
  ConfigEntry.data (entry example_world) !! CONF_HOST
    = Some (VStr "192.168.1.20") ∧
  hub_call_raises crash_env (OtherError "JSONDecodeError") ∧
  HUB_EXCEPTIONS (OtherError "JSONDecodeError") = false ∧
  result (async_setup_entry crash_env) example_world
    = Raise (OtherError "JSONDecodeError") ∧
  entry (final (async_setup_entry crash_env) example_world)
    = entry example_world.
Proof.
  assert (ConfigEntry.data (entry example_world) !! CONF_HOST
          = Some (VStr "192.168.1.20")) as Hh by (vm_compute; reflexivity).
  assert (hub_call_raises crash_env (OtherError "JSONDecodeError")) as Hr
    by (apply (scenes_fetch_raises _ primary_hub (snapshot 1 "Bedroom"));
        reflexivity).
  split; [exact Hh|]. split; [exact Hr|]. split; [reflexivity|].
  destruct (setup_other_exception_propagates crash_env example_world
              (VStr "192.168.1.20") (OtherError "JSONDecodeError")
              Hh Hr eq_refl) as (Hres & Hentry & _).
  split; [exact Hres|exact Hentry].
Defined.



(** X4: [async_setup_entry] returns [True] exactly when a host is configured,
    the firmware query answers with a hub in the role "Primary", the three
    snapshot fetches answer, the device info is true for Python and the host
    framework sets up the platforms. *)
Theorem setup_returns_true_iff env w :
  result (async_setup_entry env) w = Return true ↔
  ∃ hub_address hub room_data scene_data shade_data,
    ConfigEntry.data (entry w) !! CONF_HOST = Some hub_address ∧
    hub_query_firmware env = Return hub ∧
    Hub.role hub = VStr "Primary" ∧
    rooms_get_rooms env = Return room_data ∧
    scenes_get_scenes env = Return scene_data ∧
    shades_get_shades env = Return shade_data ∧
    device_info_bool env (device_info_of hub) = true ∧
    async_forward_entry_setups env = Return tt.
Proof.
  unfold device_info_of. run.
  all: repeat match goal with u : unit |- _ => destruct u end.
  all: split;
    [ intros Hres; first [discriminate Hres | eauto 20]
    | intros (addr & hub & rd & sd & shd & H1 & H2 & H3 & H4 & H5 & H6 & H7
              & H8);
      first [reflexivity | congruence | (simplify_eq; congruence)] ].
Qed.

(** X5: [async_setup_entry] returns [False] exactly when a host is configured
    and the firmware query answers with a hub whose role is not "Primary"; in
    those runs one error line is logged, with the hub's name, address and
    role, and in all other runs none is. *)
Theorem setup_returns_false_iff env w :
  (result (async_setup_entry env) w = Return false ↔
   ∃ hub_address hub,
     ConfigEntry.data (entry w) !! CONF_HOST = Some hub_address ∧
     hub_query_firmware env = Return hub ∧
     Hub.role hub ≠ VStr "Primary") ∧
  (∀ hub,
     result (async_setup_entry env) w = Return false →
     hub_query_firmware env = Return hub →
     filter is_error_log (events (async_setup_entry env) w) =
       [EvLog "error"
          "%s (%s) is performing role of %s Hub. Only the Primary Hub can manage shades"
          [py_str (Hub.name hub); py_str (Hub.hub_address hub);
           py_str (Hub.role hub)]]) ∧
  (result (async_setup_entry env) w ≠ Return false →
   filter is_error_log (events (async_setup_entry env) w) = []).
Proof.
  split; [|split].
  - run.
    all: split;
      [ intros Hres; first [discriminate Hres | eauto 10]
      | intros (addr & hub & H1 & H2 & H3);
        first [reflexivity | congruence | (simplify_eq; congruence)] ].
  - intros hub. run; intros Hres Hq; first [discriminate Hres | by simplify_eq].
  - run; intros Hres; first [reflexivity | done].
Qed.

(** X6: when everything up to the forwarding of the platforms has gone well
    and the host framework then raises, the run raises that exception as it
    is (a hub exception too: the call is outside the [try] blocks), and the
    runtime data and the API version stored before stay in the entry. *)
Theorem setup_forward_failure env w hub_address hub
    room_data scene_data shade_data e :
  ConfigEntry.data (entry w) !! CONF_HOST = Some hub_address →
  hub_query_firmware env = Return hub →
  Hub.role hub = VStr "Primary" →
  rooms_get_rooms env = Return room_data →
  scenes_get_scenes env = Return scene_data →
  shades_get_shades env = Return shade_data →
  device_info_bool env (device_info_of hub) = true →
  async_forward_entry_setups env = Raise e →
  result (async_setup_entry env) w = Raise e ∧
  (∃ runtime_data,
     ConfigEntry.runtime_data (entry (final (async_setup_entry env) w))
       = Some runtime_data ∧
     PowerviewEntryData.api runtime_data
       = pv_request_of hub_address (ConfigEntry.data (entry w)) ∧
     PowerviewEntryData.device_info runtime_data = device_info_of hub) ∧
  is_Some (ConfigEntry.data (entry (final (async_setup_entry env) w))
           !! CONF_API_VERSION).
Proof.
  unfold device_info_of. intros Hh Hq Hrole Hr Hs Hsh Hd Hf.
  run; try congruence.
  - split; [done|]. split; [by eexists|].
    rewrite lookup_insert_eq. by eexists.
  - split; [done|]. split; [by eexists|].
    by apply not_eq_None_Some.
Qed.

Lemma setup_forward_failure_witness :
  ConfigEntry.data (entry example_world) !! CONF_HOST
    = Some (VStr "192.168.1.20") ∧
  async_forward_entry_setups forward_fail_env = Raise (HubError "Timeout") ∧
  result (async_setup_entry forward_fail_env) example_world
    = Raise (HubError "Timeout") ∧
  is_Some (ConfigEntry.data
             (entry (final (async_setup_entry forward_fail_env) example_world))
           !! CONF_API_VERSION).
Proof.
  assert (ConfigEntry.data (entry example_world) !! CONF_HOST
          = Some (VStr "192.168.1.20")) as Hh by (vm_compute; reflexivity).
  split; [exact Hh|]. split; [reflexivity|].
  destruct (setup_forward_failure forward_fail_env example_world
              (VStr "192.168.1.20") primary_hub _ _ _ (HubError "Timeout")
              Hh eq_refl eq_refl eq_refl eq_refl eq_refl eq_refl eq_refl)
    as (Hres & _ & Hv).
  split; [exact Hres|exact Hv].
Defined.


Lemma setup_keeps_data_with_api_version env w :
  is_Some (ConfigEntry.data (entry w) !! CONF_API_VERSION) →
  filter is_entry_update (events (async_setup_entry env) w) = [] ∧
  ConfigEntry.data (entry (final (async_setup_entry env) w))
    = ConfigEntry.data (entry w) ∧
  Forall (λ ev, ∀ r, ev = EvAioRequest r →
                     Some (AioRequest.api_version r)
                     = ConfigEntry.data (entry w) !! CONF_API_VERSION)
         (events (async_setup_entry env) w).
Proof.
  intros [v Hv]. run; try congruence.
  all: split; [reflexivity|]. all: split; [reflexivity|].
  all: repeat constructor; intros r Hr; try discriminate Hr.
  all: injection Hr as <-; cbn; by rewrite Hv.
Qed.

Lemma setup_success_has_api_version env w :
  result (async_setup_entry env) w = Return true →
  is_Some (ConfigEntry.data (entry (final (async_setup_entry env) w))
           !! CONF_API_VERSION).
Proof.
  run; intros Hres; try discriminate Hres.
  - rewrite lookup_insert_eq. by eexists.
  - by apply not_eq_None_Some.
Qed.

(** X8: after a setup that returned [True] the entry's data has the API
    version key, so a later setup of the same entry, whatever it meets, does
    not update the entry again and builds its request handle with the stored
    API version. *)
Theorem setup_again_keeps_api_version env env' w :
  result (async_setup_entry env) w = Return true →
  let w1 := final (async_setup_entry env) w in
  is_Some (ConfigEntry.data (entry w1) !! CONF_API_VERSION) ∧
  filter is_entry_update (events (async_setup_entry env') w1) = [] ∧
  ConfigEntry.data (entry (final (async_setup_entry env') w1))
    = ConfigEntry.data (entry w1) ∧
  Forall (λ ev, ∀ r, ev = EvAioRequest r →
                     Some (AioRequest.api_version r)
                     = ConfigEntry.data (entry w1) !! CONF_API_VERSION)
         (events (async_setup_entry env') w1).
Proof.
  intros Hres w1.
  pose proof (setup_success_has_api_version env w Hres) as Hsome.
  split; [exact Hsome|].
  by apply setup_keeps_data_with_api_version.
Qed.

Lemma setup_again_keeps_api_version_witness :
  result (async_setup_entry primary_env) example_world = Return true ∧
  ConfigEntry.data
    (entry (final (async_setup_entry secondary_env)
                  (final (async_setup_entry primary_env) example_world)))
    = ConfigEntry.data
        (entry (final (async_setup_entry primary_env) example_world)).
Proof.
  assert (result (async_setup_entry primary_env) example_world = Return true)
    as Hres by (vm_compute; reflexivity).
  split; [exact Hres|].
  destruct (setup_again_keeps_api_version primary_env secondary_env
              example_world Hres) as (_ & _ & Hdata & _).
  exact Hdata.
Defined.

(** ** Unique-id migration: what it leaves alone and what it asks for *)

Lemma migrate_entry_registry w :
  registry (final async_migrate_entry w) =
    if decide (ConfigEntry.version (entry w) = 1
               ∧ ConfigEntry.minor_version (entry w) = 1)
    then migrate_registry_entry (entry w) <$> registry w
    else registry w.
Proof.
  unfold final. destruct (decide _) as [[Hv Hm]|Hn].
  - by rewrite migrate_entry_run_1_1.
  - rewrite migrate_entry_run_other; [done|].
    destruct (decide (ConfigEntry.version (entry w) = 1)); [|by left].
    destruct (decide (ConfigEntry.minor_version (entry w) = 1)); [|by right].
    by destruct Hn.
Qed.

Lemma migrate_entry_entry w :
  entry (final async_migrate_entry w) =
    if decide (ConfigEntry.version (entry w) = 1
               ∧ ConfigEntry.minor_version (entry w) = 1)
    then ConfigEntry.set_minor_version 2 (entry w)
    else entry w.
Proof.
  unfold final. destruct (decide _) as [[Hv Hm]|Hn].
  - by rewrite migrate_entry_run_1_1.
  - rewrite migrate_entry_run_other; [done|].
    destruct (decide (ConfigEntry.version (entry w) = 1)); [|by left].
    destruct (decide (ConfigEntry.minor_version (entry w) = 1)); [|by right].
    by destruct Hn.
Qed.

Lemma migrate_registry_entry_config_entry_id e re :
  RegistryEntry.config_entry_id (migrate_registry_entry e re)
    = RegistryEntry.config_entry_id re.
Proof. apply migrate_registry_entry_settled. Qed.

(** X9: at any version, [async_migrate_entry] leaves alone every registry
    entry that belongs to another config entry, and every entry whose unique
    id is a string that already starts with the entry's unique id. *)
Theorem migrate_entry_leaves_others w entity_id reg_entry :
  registry w !! entity_id = Some reg_entry →
  RegistryEntry.config_entry_id reg_entry
    ≠ Some (ConfigEntry.entry_id (entry w)) ∨
  (∃ s, RegistryEntry.unique_id reg_entry = UidStr s ∧
        startswith s (ConfigEntry.unique_id (entry w)) = true) →
  registry (final async_migrate_entry w) !! entity_id = Some reg_entry.
Proof.
  intros Hk Hother. rewrite migrate_entry_registry.
  destruct (decide _) as [_|_]; [|done].
  rewrite lookup_fmap, Hk. cbn [fmap option_fmap option_map]. f_equal.
  unfold migrate_registry_entry.
  destruct (decide _) as [Hc|_]; [|done].
  destruct Hother as [Hne|Hs%unique_id_settled]; [done|]. by rewrite Hs.
Qed.

Lemma migrate_entry_leaves_others_witness :
  registry example_world !! "light.desk"
    = Some (RegistryEntry.mk (Some "entry-2") (UidInt 9)) ∧
  registry example_world !! "cover.right"
    = Some (RegistryEntry.mk (Some "entry-1") (UidStr "A1B2C3_7")) ∧
  registry (final async_migrate_entry example_world) !! "light.desk"
    = Some (RegistryEntry.mk (Some "entry-2") (UidInt 9)) ∧
  registry (final async_migrate_entry example_world) !! "cover.right"
    = Some (RegistryEntry.mk (Some "entry-1") (UidStr "A1B2C3_7")).
Proof.
  assert (registry example_world !! "light.desk"
          = Some (RegistryEntry.mk (Some "entry-2") (UidInt 9))) as H1
    by (vm_compute; reflexivity).
  assert (registry example_world !! "cover.right"
          = Some (RegistryEntry.mk (Some "entry-1") (UidStr "A1B2C3_7"))) as H2
    by (vm_compute; reflexivity).
  split; [exact H1|]. split; [exact H2|]. split.
  - apply (migrate_entry_leaves_others example_world _ _ H1).
    left. discriminate.
  - apply (migrate_entry_leaves_others example_world _ _ H2).
    right. exists "A1B2C3_7". split; reflexivity.
Defined.

(** X10: at any version, [async_migrate_entry] adds no registry entry and
    removes none, and every entry stays with its config entry. *)
Theorem migrate_entry_keeps_registry_shape w :
  dom (registry (final async_migrate_entry w)) = dom (registry w) ∧
  ∀ entity_id,
    RegistryEntry.config_entry_id
      <$> registry (final async_migrate_entry w) !! entity_id
    = RegistryEntry.config_entry_id <$> registry w !! entity_id.
Proof.
  rewrite migrate_entry_registry. destruct (decide _) as [_|_]; [|done].
  split; [apply dom_fmap_L|].
  intros k. rewrite lookup_fmap. destruct (registry w !! k) as [re|]; [|done].
  cbn [fmap option_fmap option_map]. f_equal.
  apply migrate_registry_entry_config_entry_id.
Qed.

(** X11: [async_migrate_entry] changes nothing of the config entry but the
    minor version, which becomes 2 when the entry is at version 1 with minor
    version 1 and stays as it is otherwise. *)
Theorem migrate_entry_touches_minor_version_only w :
  let e := entry w in
  let e' := entry (final async_migrate_entry w) in
  ConfigEntry.entry_id e' = ConfigEntry.entry_id e ∧
  ConfigEntry.unique_id e' = ConfigEntry.unique_id e ∧
  ConfigEntry.version e' = ConfigEntry.version e ∧
  ConfigEntry.data e' = ConfigEntry.data e ∧
  ConfigEntry.runtime_data e' = ConfigEntry.runtime_data e ∧
  ConfigEntry.minor_version e' =
    if decide (ConfigEntry.version e = 1 ∧ ConfigEntry.minor_version e = 1)
    then 2 else ConfigEntry.minor_version e.
Proof.
  intros e e'. subst e e'. rewrite migrate_entry_entry.
  by destruct (decide _).
Qed.

(** X12: running [async_migrate_entry] a second time changes nothing: the
    entry and the registry stay as the first run left them, no entity update
    and no entry update is asked for, and [True] is returned again. *)
Theorem migrate_entry_twice w :
  let w1 := final async_migrate_entry w in
  result async_migrate_entry w1 = Return true ∧
  entry (final async_migrate_entry w1) = entry w1 ∧
  registry (final async_migrate_entry w1) = registry w1 ∧
  filter is_entity_update (events async_migrate_entry w1) = [] ∧
  filter is_entry_update (events async_migrate_entry w1) = [].
Proof.
  intros w1.
  assert (ConfigEntry.version (entry w1) ≠ 1
          ∨ ConfigEntry.minor_version (entry w1) ≠ 1) as Hv.
  { subst w1. rewrite migrate_entry_entry.
    destruct (decide _) as [_|Hn]; [by right|].
    destruct (decide (ConfigEntry.version (entry w) = 1)); [|by left].
    destruct (decide (ConfigEntry.minor_version (entry w) = 1)); [|by right].
    by destruct Hn. }
  clearbody w1. unfold result, events, final.
  rewrite (migrate_entry_run_other w1 Hv). cbn [fst snd entry registry trace].
  by rewrite drop_app_length.
Qed.

Lemma entity_updates_migrate_items e l :
  entity_updates (concat (migrate_item_events e <$> l))
    = omap (migrate_item_update e) l.
Proof.
  unfold entity_updates. induction l as [|item l IH]; [done|].
  rewrite fmap_cons. cbn [concat]. rewrite omap_app, IH.
  change (omap (migrate_item_update e) (item :: l))
    with (match migrate_item_update e item with
          | Some u => u :: omap (migrate_item_update e) l
          | None => omap (migrate_item_update e) l
          end).
  unfold migrate_item_events, migrate_item_update at 2.
  by destruct (needs_migration _ _).
Qed.

Lemma migrate_item_update_keys e l :
  (omap (migrate_item_update e) l).*1 `sublist_of` l.*1.
Proof.
  induction l as [|[k re] l IH]; [done|].
  rewrite fmap_cons. cbn [omap list_omap]. unfold migrate_item_update at 1.
  cbn [fst snd]. destruct (needs_migration _ _).
  - rewrite fmap_cons. by apply sublist_skip.
  - by apply sublist_cons.
Qed.

Lemma migrate_unique_ids_events w :
  events _migrate_unique_ids w =
    concat (migrate_item_events (entry w) <$>
            async_entries_for_config_entry
              (registry w) (ConfigEntry.entry_id (entry w))).
Proof.
  unfold events, final. rewrite migrate_unique_ids_run. cbn [snd trace].
  by rewrite drop_app_length.
Qed.

(** X13: [_migrate_unique_ids] asks for the update of an entity exactly when
    its registry entry belongs to the config entry and has an integer unique
    id or a string one that does not start with the entry's unique id, with
    the prefixed id as new unique id; and it asks at most once per entity. *)
Theorem migrate_unique_ids_updates w :
  (∀ entity_id new_id,
     (entity_id, new_id) ∈ entity_updates (events _migrate_unique_ids w) ↔
     ∃ reg_entry,
       registry w !! entity_id = Some reg_entry ∧
       RegistryEntry.config_entry_id reg_entry
         = Some (ConfigEntry.entry_id (entry w)) ∧
       needs_migration (ConfigEntry.unique_id (entry w))
                       (RegistryEntry.unique_id reg_entry) = true ∧
       new_id = ConfigEntry.unique_id (entry w) +:+ "_"
                  +:+ uid_str (RegistryEntry.unique_id reg_entry)) ∧
  NoDup (entity_updates (events _migrate_unique_ids w)).*1.
Proof.
  rewrite migrate_unique_ids_events, entity_updates_migrate_items. split.
  - intros k s. rewrite list_elem_of_omap. split.
    + intros ([k' re] & Hin & Hup).
      apply elem_of_entries_for_config_entry in Hin as [Hk Hc].
      unfold migrate_item_update in Hup. cbn [fst snd] in Hup.
      destruct (needs_migration _ _) eqn:Hn; [|done].
      injection Hup as <- <-. by exists re.
    + intros (re & Hk & Hc & Hn & ->). exists (k, re). split.
      * by apply elem_of_entries_for_config_entry.
      * unfold migrate_item_update. cbn [fst snd]. by rewrite Hn.
  - eapply sublist_NoDup; [apply NoDup_entries_for_config_entry|].
    apply migrate_item_update_keys.
Qed.

(** X14: two registry entries of the config entry that are both rewritten
    and whose old unique ids print differently (two different integers, say)
    have different unique ids after [_migrate_unique_ids]. *)
Theorem migrate_unique_ids_keeps_ids_apart w k1 k2 re1 re2 :
  registry w !! k1 = Some re1 →
  registry w !! k2 = Some re2 →
  RegistryEntry.config_entry_id re1 = Some (ConfigEntry.entry_id (entry w)) →
  RegistryEntry.config_entry_id re2 = Some (ConfigEntry.entry_id (entry w)) →
  needs_migration (ConfigEntry.unique_id (entry w))
                  (RegistryEntry.unique_id re1) = true →
  needs_migration (ConfigEntry.unique_id (entry w))
                  (RegistryEntry.unique_id re2) = true →
  uid_str (RegistryEntry.unique_id re1)
    ≠ uid_str (RegistryEntry.unique_id re2) →
  RegistryEntry.unique_id <$> registry (final _migrate_unique_ids w) !! k1
    ≠ RegistryEntry.unique_id <$> registry (final _migrate_unique_ids w) !! k2.
Proof.
  intros Hk1 Hk2 Hc1 Hc2 Hn1 Hn2 Hne. unfold final.
  rewrite migrate_unique_ids_run. cbn [snd registry].
  rewrite !lookup_fmap, Hk1, Hk2. cbn [fmap option_fmap option_map].
  unfold migrate_registry_entry. rewrite !decide_True by done.
  rewrite Hn1, Hn2. cbn [RegistryEntry.unique_id RegistryEntry.set_unique_id].
  unfold new_unique_id. intros [= Heq]. apply Hne.
  by do 2 apply (inj (String.app _)) in Heq.
Qed.

Lemma migrate_unique_ids_keeps_ids_apart_witness :
  let left := RegistryEntry.mk (Some "entry-1") (UidInt 5) in
  let morning := RegistryEntry.mk (Some "entry-1") (UidStr "scene_2") in
  registry example_world !! "cover.left" = Some left ∧
  registry example_world !! "scene.morning" = Some morning ∧
  RegistryEntry.unique_id
    <$> registry (final _migrate_unique_ids example_world) !! "cover.left"
  ≠ RegistryEntry.unique_id
    <$> registry (final _migrate_unique_ids example_world) !! "scene.morning".
Proof.
  intros left morning.
  assert (registry example_world !! "cover.left" = Some left) as H1
    by (vm_compute; reflexivity).
  assert (registry example_world !! "scene.morning" = Some morning) as H2
    by (vm_compute; reflexivity).
  split; [exact H1|]. split; [exact H2|].
  apply (migrate_unique_ids_keeps_ids_apart example_world _ _ left morning
           H1 H2 eq_refl eq_refl eq_refl eq_refl).
  discriminate.
Defined.

(** X15: when no registry entry belongs to the config entry,
    [_migrate_unique_ids] makes no call and leaves the world as it is. *)
Theorem migrate_unique_ids_nothing_to_do w :
  (∀ entity_id reg_entry,
     registry w !! entity_id = Some reg_entry →
     RegistryEntry.config_entry_id reg_entry
       ≠ Some (ConfigEntry.entry_id (entry w))) →
  events _migrate_unique_ids w = [] ∧
  final _migrate_unique_ids w = w.
Proof.
  intros Hnone.
  assert (async_entries_for_config_entry
            (registry w) (ConfigEntry.entry_id (entry w)) = []) as Hl.
  { apply elem_of_nil_inv. intros [k re] Hin.
    apply elem_of_entries_for_config_entry in Hin as [Hk Hc].
    by apply (Hnone k re). }
  split.
  - by rewrite migrate_unique_ids_events, Hl.
  - unfold final, _migrate_unique_ids, mbind, M_bind, get_registry, get_entry.
    rewrite Hl. by destruct w.
Qed.

Lemma migrate_unique_ids_nothing_to_do_witness :
  events _migrate_unique_ids bare_world = [] ∧
  final _migrate_unique_ids bare_world = bare_world.
Proof.
  apply (migrate_unique_ids_nothing_to_do bare_world).
  intros entity_id reg_entry Hk. cbn in Hk. by rewrite lookup_empty in Hk.
Defined.
